(** * Library Management API (main.py): a shallow embedding

    The program is one Python module: two pydantic models, a connection
    helper [get_db], the schema initialiser [init_db] and five request
    handlers that each run one SQL statement against the table [books].

    Layout of this file:
    - [Python]: results, exceptions, a state-and-exception monad and the
      [with] statement together with [contextlib.contextmanager];
    - the models [BookCreate] and [Book];
    - [Sql]: the table [books] under the schema of [init_db], the six SQL
      statements the module issues, and a connection with its transaction;
    - [App]: the handlers, written once over the callable [get_db] they name;
    - [Main]: the handlers with [get_db] exactly as main.py defines it, a bare
      generator function; [Decorated]: the same handlers with
      [contextlib.contextmanager] applied to it;
    - the request boundary (validation of a JSON body against [BookCreate])
      and sequences of requests;
    - the theorems.

    What the embedding takes from the libraries the module runs on:
    - Python: [with] needs an object with [__enter__] and [__exit__]; a
      generator object has neither;
    - SQLite: a statement either applies in full or fails and changes
      nothing; UNIQUE compares isbn for equality; AUTOINCREMENT hands out
      ids above [sqlite_sequence] and above every stored rowid; a SELECT
      over the whole table yields the rows by ascending rowid;
    - sqlite3: changes are visible on disk after [commit], and [close] drops
      the ones not committed; an integer parameter outside 64 bits raises
      [OverflowError];
    - FastAPI: a body that fails validation is answered with 422 and the
      handler is not called; [HTTPException] becomes its status code and any
      other exception 500. *)

From Stdlib Require Import ZArith Lia Sorted.
From stdpp Require Import base option list gmap strings fin_maps sorting.

Set Warnings "-register-all".
Local Open Scope Z_scope.

(* ===================================================================== *)
(** ** Python: exceptions, results, the [with] statement                 *)
(* ===================================================================== *)

Module Python.

(** The exceptions that can occur in main.py.  [NoContextManagerProtocol]
    is what [with obj] raises when [type(obj)] has no [__enter__] /
    [__exit__] (a [TypeError] from Python 3.11 on, an [AttributeError]
    before).  [NoneNotIterable] is the [TypeError] of [dict(None)]. *)
Inductive exception :=
| NoContextManagerProtocol
| NoneNotIterable
| OverflowError
| IntegrityError
| OperationalError
| ValidationError
| RequestValidationError
| HTTPException (status_code : Z) (detail : string).

Inductive result (A : Type) :=
| Return (a : A)
| Raise (e : exception).
Arguments Return {A} a.
Arguments Raise {A} e.

(** A computation over a mutable state [S] that returns or raises; what it
    changed before raising stays changed. *)
Definition Py (S A : Type) : Type := S -> result A * S.

Definition ret {S A} (a : A) : Py S A := fun s => (Return a, s).

Definition raise {S A} (e : exception) : Py S A := fun s => (Raise e, s).

Definition bind {S A B} (m : Py S A) (k : A -> Py S B) : Py S B :=
  fun s =>
    match m s with
    | (Return a, s') => k a s'
    | (Raise e, s') => (Raise e, s')
    end.

(** [try: m except ...: handler] where [handler] re-raises what its clauses
    do not match. *)
Definition try_except {S A} (m : Py S A) (handler : exception -> Py S A)
  : Py S A :=
  fun s =>
    match m s with
    | (Return a, s') => (Return a, s')
    | (Raise e, s') => handler e s'
    end.

(** A list comprehension whose element expression may raise. *)
Fixpoint comprehension {S A B} (f : A -> Py S B) (l : list A)
  : Py S (list B) :=
  match l with
  | [] => ret []
  | a :: l' =>
      bind (f a) (fun b => bind (comprehension f l') (fun bs => ret (b :: bs)))
  end.

(** A generator function of the shape
    [x = setup(); try: yield x; finally: cleanup(x)]: over an outer state
    [S] it produces a resource [C] and later folds it back. *)
Record generator (S C : Type) := {
  before_yield : S -> C;
  finally_ : C -> S
}.
Arguments before_yield {S C} g s.
Arguments finally_ {S C} g c.

(** What calling such a function gives: a generator object when the
    function is bare (its body has not started), a context manager when
    the function went through [contextlib.contextmanager]. *)
Inductive object (S C : Type) :=
| generator_object (g : generator S C)
| GeneratorContextManager (g : generator S C).
Arguments generator_object {S C} g.
Arguments GeneratorContextManager {S C} g.

Definition contextmanager {S C X} (func : X -> object S C)
  : X -> object S C :=
  fun x =>
    match func x with
    | generator_object g => GeneratorContextManager g
    | o => o
    end.

(** [with mgr as c: body].  A generator object has no [__enter__]: the
    statement raises before the body and before the generator runs.  A
    context manager runs the generator to its [yield], then the body on
    the yielded resource, then the [finally] block whether the body
    returned or raised. *)
Definition with_ {S C A} (mgr : object S C) (body : Py C A) : Py S A :=
  fun s =>
    match mgr with
    | generator_object _ => (Raise NoContextManagerProtocol, s)
    | GeneratorContextManager g =>
        let (r, c) := body (before_yield g s) in (r, finally_ g c)
    end.

(** The status FastAPI answers with. *)
Definition status_code {A} (r : result A) : Z :=
  match r with
  | Return _ => 200
  | Raise (HTTPException status _) => status
  | Raise RequestValidationError => 422
  | Raise _ => 500
  end.

Declare Scope py_scope.
Delimit Scope py_scope with py.
Notation "x <- m ;; k" := (bind m (fun x => k))
  (at level 100, m at next level, right associativity) : py_scope.
Notation "m ;;; k" := (bind m (fun _ => k))
  (at level 100, right associativity) : py_scope.

End Python.
Import Python.

(* ===================================================================== *)
(** ** Pydantic models (main.py, lines 10-17)                            *)
(* ===================================================================== *)

Record BookCreate := {
  title : string;
  author : string;
  publication_year : Z;
  isbn : string
}.

(** [class Book(BookCreate)] adds [id] to the inherited fields. *)
Record Book := {
  fields : BookCreate;
  id : Z
}.

(* ===================================================================== *)
(** ** The table [books] and the SQL statements                          *)
(* ===================================================================== *)

Module Sql.

(** A rowid table: rows keyed by the INTEGER PRIMARY KEY, plus the
    [sqlite_sequence] entry that AUTOINCREMENT keeps for the table (0 while
    the table has no entry).  The columns are NOT NULL and typed by the
    parameters the handlers bind, so a row is a [BookCreate]. *)
Record table := {
  rows : gmap Z BookCreate;
  seq : Z
}.

(** library.db: the table is absent until CREATE TABLE has run. *)
Definition database : Type := option table.

Definition empty_table : table := {| rows := ∅; seq := 0 |}.

Definition MAX_ROWID : Z := 2 ^ 63 - 1.

(** The integers the sqlite3 module can bind as a parameter. *)
Definition is_int64 (z : Z) : bool :=
  (- 2 ^ 63 <=? z) && (z <=? MAX_ROWID).

Inductive statement :=
| CREATE_TABLE_IF_NOT_EXISTS
| SELECT_all
| SELECT_where_id (id : Z)
| INSERT_RETURNING (book : BookCreate)
| UPDATE_RETURNING (book : BookCreate) (id : Z)
| DELETE_RETURNING_id (id : Z).

(** A fetched row: all columns ([SELECT *], [RETURNING *]) or the id
    column alone ([RETURNING id]). *)
Inductive Row :=
| all_columns (b : Book)
| id_column (id : Z).

Definition cursor : Type := list Row.

Definition fetchone (c : cursor) : option Row := head c.

Definition fetchall (c : cursor) : list Row := c.

(** The UNIQUE constraint on isbn: some row other than [self] already
    holds [s]. *)
Definition isbn_taken (self : option Z) (s : string)
    (m : gmap Z BookCreate) : bool :=
  bool_decide (map_Exists (λ k r, Some k ≠ self ∧ isbn r = s) m).

Fixpoint largest (l : list Z) : option Z :=
  match l with
  | [] => None
  | k :: l' =>
      match largest l' with
      | None => Some k
      | Some m => Some (Z.max k m)
      end
  end.

Definition max_rowid (m : gmap Z BookCreate) : option Z :=
  largest (map_to_list m).*1.

(** AUTOINCREMENT: one more than the largest rowid in the table (1 for an
    empty table), raised to one more than [sqlite_sequence]; SQLITE_FULL
    when either has reached the largest rowid (both are 64-bit in the
    engine, so reaching it is being equal to it). *)
Definition new_rowid (t : table) : result Z :=
  let last := max_rowid (rows t) in
  if (MAX_ROWID <=? seq t) || from_option (Z.leb MAX_ROWID) false last
  then Raise OperationalError
  else Return (Z.max (from_option Z.succ 1 last) (seq t + 1)).

Definition bindable (stmt : statement) : bool :=
  match stmt with
  | CREATE_TABLE_IF_NOT_EXISTS | SELECT_all => true
  | SELECT_where_id id | DELETE_RETURNING_id id => is_int64 id
  | INSERT_RETURNING b => is_int64 (publication_year b)
  | UPDATE_RETURNING b id => is_int64 (publication_year b) && is_int64 id
  end.

(** The order of the rowid b-tree. *)
Definition by_rowid : relation (Z * BookCreate) := λ a b, a.1 <= b.1.

#[global] Instance by_rowid_dec : RelDecision by_rowid.
Proof. intros a b. unfold by_rowid. apply _. Defined.

(** The rows as a scan of the table meets them: by ascending rowid. *)
Definition scan (t : table) : list (Z * BookCreate) :=
  merge_sort by_rowid (map_to_list (rows t)).

(** One statement on a table that exists: the rows it yields and the
    table it leaves, or the error it fails with (leaving the table as it
    was). *)
Definition run_on (stmt : statement) (t : table)
  : result (cursor * table) :=
  match stmt with
  | CREATE_TABLE_IF_NOT_EXISTS => Return ([], t)
  | SELECT_all =>
      Return ((λ kr, all_columns {| fields := kr.2; id := kr.1 |})
                <$> scan t, t)
  | SELECT_where_id i =>
      match rows t !! i with
      | Some r => Return ([all_columns {| fields := r; id := i |}], t)
      | None => Return ([], t)
      end
  | INSERT_RETURNING b =>
      match new_rowid t with
      | Raise e => Raise e
      | Return k =>
          if isbn_taken None (isbn b) (rows t) then Raise IntegrityError
          else Return ([all_columns {| fields := b; id := k |}],
                       {| rows := <[k:=b]> (rows t); seq := k |})
      end
  | UPDATE_RETURNING b i =>
      match rows t !! i with
      | None => Return ([], t)
      | Some _ =>
          if isbn_taken (Some i) (isbn b) (rows t) then Raise IntegrityError
          else Return ([all_columns {| fields := b; id := i |}],
                       {| rows := <[i:=b]> (rows t); seq := seq t |})
      end
  | DELETE_RETURNING_id i =>
      match rows t !! i with
      | None => Return ([], t)
      | Some _ =>
          Return ([id_column i],
                  {| rows := delete i (rows t); seq := seq t |})
      end
  end.

Definition run (stmt : statement) (db : database)
  : result (cursor * database) :=
  match stmt, db with
  | CREATE_TABLE_IF_NOT_EXISTS, None => Return ([], Some empty_table)
  | _, None => Raise OperationalError
  | _, Some t =>
      match run_on stmt t with
      | Return (c, t') => Return (c, Some t')
      | Raise e => Raise e
      end
  end.

(** What the process can observe and change: the database file and, for
    the record, every statement passed to [conn.execute] so far.  The BEGIN
    and COMMIT that sqlite3 issues on its own around them are not
    recorded. *)
Record world := {
  library_db : database;
  journal : list statement
}.

(** An open connection: the file as committed, the connection's own view
    of it (with the changes of its open transaction), and the journal. *)
Record connection := {
  committed : database;
  view : database;
  submitted : list statement
}.

Definition connect (w : world) : connection :=
  {| committed := library_db w; view := library_db w;
     submitted := journal w |}.

(** Closing drops whatever was not committed. *)
Definition close (c : connection) : world :=
  {| library_db := committed c; journal := submitted c |}.

(** [conn.execute(sql, params)]: binding an integer outside 64 bits raises
    before the engine sees the statement; a failing statement changes
    nothing.  The statement is noted in the journal once it is bound. *)
Definition execute (stmt : statement) : Py connection cursor :=
  fun c =>
    if bindable stmt then
      match run stmt (view c) with
      | Raise e =>
          (Raise e, {| committed := committed c; view := view c;
                       submitted := submitted c ++ [stmt] |})
      | Return (rows, db') =>
          (Return rows, {| committed := committed c; view := db';
                           submitted := submitted c ++ [stmt] |})
      end
    else (Raise OverflowError, c).

Definition commit : Py connection unit :=
  fun c =>
    (Return tt, {| committed := view c; view := view c;
                   submitted := submitted c |}).

End Sql.
Import Sql.

(* ===================================================================== *)
(** ** main.py                                                           *)
(* ===================================================================== *)

(** The body of [get_db] (lines 20-26): open a connection to library.db,
    yield it, and close it in the [finally] block. *)
Definition get_db_body : generator world connection :=
  {| before_yield := connect; finally_ := close |}.

(** [Book( **dict(row))]: [dict(None)] raises; a row with all five columns
    validates; a row without them does not. *)
Definition Book_from {S} (row : option Row) : Py S Book :=
  match row with
  | None => raise NoneNotIterable
  | Some (all_columns b) => ret b
  | Some (id_column _) => raise ValidationError
  end.

Definition NotFound : exception := HTTPException 404 "Book not found".

Definition Conflict : exception := HTTPException 400 "ISBN already exists".

Module App.
Section Handlers.

Local Open Scope py_scope.

(** The handlers call the module-level name [get_db]; they are written
    here over whatever that name is bound to. *)
Variable get_db : unit -> object world connection.

(** Lines 29-40. *)
Definition init_db : Py world unit :=
  with_ (get_db tt) (
    execute CREATE_TABLE_IF_NOT_EXISTS ;;;
    commit).

(** Lines 45-50. *)
Definition get_books : Py world (list Book) :=
  with_ (get_db tt) (
    cursor <- execute SELECT_all ;;
    let books := fetchall cursor in
    comprehension (fun book => Book_from (Some book)) books).

(** Lines 52-59. *)
Definition get_book (id : Z) : Py world Book :=
  with_ (get_db tt) (
    cursor <- execute (SELECT_where_id id) ;;
    let book := fetchone cursor in
    match book with
    | None => raise NotFound
    | Some _ => Book_from book
    end).

(** Lines 61-77. *)
Definition create_book (book : BookCreate) : Py world Book :=
  try_except
    (with_ (get_db tt) (
       cursor <- execute (INSERT_RETURNING book) ;;
       let new_book := fetchone cursor in
       commit ;;;
       Book_from new_book))
    (fun e =>
       match e with
       | IntegrityError => raise Conflict
       | _ => raise e
       end).

(** Lines 79-95. *)
Definition update_book (id : Z) (book : BookCreate) : Py world Book :=
  with_ (get_db tt) (
    cursor <- execute (UPDATE_RETURNING book id) ;;
    let updated_book := fetchone cursor in
    match updated_book with
    | None => raise NotFound
    | Some _ =>
        commit ;;;
        Book_from updated_book
    end).

(** Lines 97-104. *)
Definition delete_book (id : Z) : Py world (gmap string string) :=
  with_ (get_db tt) (
    cursor <- execute (DELETE_RETURNING_id id) ;;
    match fetchone cursor with
    | None => raise NotFound
    | Some _ =>
        commit ;;;
        ret {[ "message" := "Book deleted successfully" ]}
    end).

End Handlers.
End App.

(** main.py as written: [get_db] is a bare generator function ([def get_db]
    at line 20 carries no decorator; [contextmanager] is imported at line 5
    and not used), so a call returns a generator object. *)
Module Main.

Definition get_db (_ : unit) : object world connection :=
  generator_object get_db_body.

Definition init_db := App.init_db get_db.
Definition get_books := App.get_books get_db.
Definition get_book := App.get_book get_db.
Definition create_book := App.create_book get_db.
Definition update_book := App.update_book get_db.
Definition delete_book := App.delete_book get_db.

End Main.

(** The same module with [@contextmanager] on [get_db]. *)
Module Decorated.

Definition get_db : unit -> object world connection :=
  contextmanager Main.get_db.

Definition init_db := App.init_db get_db.
Definition get_books := App.get_books get_db.
Definition get_book := App.get_book get_db.
Definition create_book := App.create_book get_db.
Definition update_book := App.update_book get_db.
Definition delete_book := App.delete_book get_db.

End Decorated.

(** Both bindings of the name [get_db], for statements that hold of either. *)
Inductive binding := as_written | decorated.

Definition get_db_of (b : binding) : unit -> object world connection :=
  match b with
  | as_written => Main.get_db
  | decorated => Decorated.get_db
  end.

(* ===================================================================== *)
(** ** The request boundary                                              *)
(* ===================================================================== *)

Inductive json :=
| JNull
| JBool (b : bool)
| JInt (n : Z)
| JFloat (literal : string)
| JString (s : string)
| JArray (l : list json)
| JObject (o : gmap string json).

(** How pydantic validates one value against the annotations [str] and
    [int].  Which JSON values each accepts (and what it coerces) is
    pydantic's and differs between its versions; the model takes both
    validators as given. *)
Class FieldTypes := {
  validate_str : json -> option string;
  validate_int : json -> option Z
}.

(** The validators that accept exactly a JSON string and a JSON integer.
    They are stricter than pydantic, which also converts (see [lax_types]);
    what they accept, pydantic accepts with the same result. *)
Definition exact_types : FieldTypes :=
  {| validate_str := λ j, match j with JString s => Some s | _ => None end;
     validate_int := λ j, match j with JInt n => Some n | _ => None end |}.








Section Boundary.

Context {types : FieldTypes}.
Variable get_db : unit -> object world connection.

(** Validation of a request body against [BookCreate] (lines 10-14): the
    body is a JSON object, each of the four fields is present (none has a
    default) and passes the validator of its annotation.  [None] as body
    is a body that is not JSON at all. *)
Definition BookCreate_validate (body : option json) : option BookCreate :=
  match body with
  | Some (JObject o) =>
      t ← o !! "title" ≫= validate_str;
      a ← o !! "author" ≫= validate_str;
      y ← o !! "publication_year" ≫= validate_int;
      i ← o !! "isbn" ≫= validate_str;
      Some {| title := t; author := a; publication_year := y; isbn := i |}
  | _ => None
  end.

(** [@app.post("/items")] with the parameter [book: BookCreate]: FastAPI
    validates the body and calls the handler only with a valid model. *)
Definition POST_items (body : option json) : Py world Book :=
  match BookCreate_validate body with
  | None => raise RequestValidationError
  | Some book => App.create_book get_db book
  end.

(** [@app.put("/items/{id}")]. *)
Definition PUT_items (id : Z) (body : option json) : Py world Book :=
  match BookCreate_validate body with
  | None => raise RequestValidationError
  | Some book => App.update_book get_db id book
  end.

End Boundary.

(** A body is rejected for one of these reasons. *)
Inductive invalid_body {types : FieldTypes} : option json -> Prop :=
| not_json : invalid_body None
| not_an_object j : (∀ o, j ≠ JObject o) -> invalid_body (Some j)
| missing_field o k :
    k ∈ ["title"; "author"; "publication_year"; "isbn"] ->
    o !! k = None -> invalid_body (Some (JObject o))
| mistyped_str o k j :
    k ∈ ["title"; "author"; "isbn"] ->
    o !! k = Some j -> validate_str j = None ->
    invalid_body (Some (JObject o))
| mistyped_int o j :
    o !! "publication_year" = Some j -> validate_int j = None ->
    invalid_body (Some (JObject o)).


(* ===================================================================== *)
(** ** Sequences of requests                                             *)
(* ===================================================================== *)

Inductive request :=
| list_
| get_ (id : Z)
| create_ (book : BookCreate)
| update_ (id : Z) (book : BookCreate)
| delete_ (id : Z).

Inductive content :=
| books_content (l : list Book)
| book_content (b : Book)
| message_content (m : gmap string string).

Definition fmap_result {A B} (f : A -> B) (x : result A * world)
  : result B * world :=
  match x with
  | (Return a, w) => (Return (f a), w)
  | (Raise e, w) => (Raise e, w)
  end.

Definition serve (get_db : unit -> object world connection) (r : request)
  : Py world content :=
  fun w =>
    match r with
    | list_ => fmap_result books_content (App.get_books get_db w)
    | get_ i => fmap_result book_content (App.get_book get_db i w)
    | create_ b => fmap_result book_content (App.create_book get_db b w)
    | update_ i b => fmap_result book_content (App.update_book get_db i b w)
    | delete_ i => fmap_result message_content (App.delete_book get_db i w)
    end.

(** Serve the requests in order; the log pairs each with its response. *)
Fixpoint serve_all (get_db : unit -> object world connection)
    (rs : list request) (w : world)
  : list (request * result content) * world :=
  match rs with
  | [] => ([], w)
  | r :: rs' =>
      let (resp, w') := serve get_db r w in
      let (log, w'') := serve_all get_db rs' w' in
      ((r, resp) :: log, w'')
  end.

(** The id a successful create answered with. *)
Definition created_id (entry : request * result content) : option Z :=
  match entry with
  | (create_ _, Return (book_content b)) => Some (id b)
  | _ => None
  end.

Definition created_ids (log : list (request * result content)) : list Z :=
  omap created_id log.

Definition dune : BookCreate :=
  {| title := "Dune"; author := "Herbert"; publication_year := 1965;
     isbn := "123" |}.

Definition statuses (log : list (request * result content)) : list Z :=
  (λ entry, status_code entry.2) <$> log.

(** The scenario of the specification: create Dune, create it again, move
    record 1 to another isbn, delete it, read it. *)
Definition scenario : list request :=
  [ create_ dune; create_ dune;
    update_ 1 {| title := "Dune"; author := "Herbert";
                 publication_year := 1965; isbn := "456" |};
    delete_ 1; get_ 1 ].

(** Every isbn is held by at most one row. *)
Definition isbn_unique (t : table) : Prop :=
  ∀ i j r r', rows t !! i = Some r -> rows t !! j = Some r' ->
              isbn r = isbn r' -> i = j.

(** What the schema keeps true of a table that only these statements have
    written: isbn is unique, [sqlite_sequence] is a rowid, and every row's
    id is positive and at most [sqlite_sequence]. *)
Definition sound (t : table) : Prop :=
  isbn_unique t ∧
  0 <= seq t <= MAX_ROWID ∧
  ∀ i r, rows t !! i = Some r -> 1 <= i <= seq t.

Definition emma : BookCreate :=
  {| title := "Emma"; author := "Austen"; publication_year := 1815;
     isbn := "456" |}.

(** Worlds to evaluate on: the table just created, the table holding
    [dune] at id 1, and the table holding [dune] and [emma]. *)
Definition fresh : world :=
  {| library_db := Some empty_table; journal := [] |}.

Definition one_book : table := {| rows := {[ 1 := dune ]}; seq := 1 |}.

Definition two_books : table :=
  {| rows := <[2 := emma]> {[ 1 := dune ]}; seq := 2 |}.

(** [two_books] once record 1 has been deleted. *)
Definition emma_left : table := {| rows := {[ 2 := emma ]}; seq := 2 |}.

Definition stocked : world :=
  {| library_db := Some one_book; journal := [] |}.

Definition shelf : world :=
  {| library_db := Some two_books; journal := [] |}.

(** A request body whose title and author are the empty string. *)
Definition blank_body : json :=
  JObject (<["title" := JString ""]> (<["author" := JString ""]>
          (<["publication_year" := JInt 1965]> {[ "isbn" := JString "123" ]}))).

Definition blank : BookCreate :=
  {| title := ""; author := ""; publication_year := 1965; isbn := "123" |}.

Definition hobbit : BookCreate :=
  {| title := "The Hobbit"; author := "Tolkien"; publication_year := 1937;
     isbn := "789" |}.



(** A request body without isbn. *)
Definition no_isbn_body : json :=
  JObject (<["title" := JString "Dune"]> (<["author" := JString "Herbert"]>
          {[ "publication_year" := JInt 1965 ]})).

(** The world after one more statement went to the engine without a
    committed change. *)
Definition logged (w : world) (stmt : statement) : world :=
  {| library_db := library_db w; journal := journal w ++ [stmt] |}.

(** Two databases agree on the row with id [i]. *)
Definition same_row (i : Z) (db db' : database) : Prop :=
  match db, db' with
  | None, None => True
  | Some t, Some t' => rows t !! i = rows t' !! i
  | _, _ => False
  end.


(** [i] lies above the table's [sqlite_sequence]. *)
Definition above (db : database) (i : Z) : Prop :=
  match db with
  | Some t => seq t < i
  | None => False
  end.

Definition deleted_message : gmap string string :=
  {[ "message" := "Book deleted successfully" ]}.


(** The number of rows of [books]. *)
Definition row_count (t : table) : nat := size (rows t).

(** The books a [SELECT *] yields, one per row. *)
Definition books_of (t : table) : list Book :=
  (λ kr, {| fields := kr.2; id := kr.1 |}) <$> scan t.

(** A [Book] as a response body ([response_model=Book]): one member per
    field of the model. *)
Definition Book_json (b : Book) : json :=
  JObject (<["id" := JInt (id b)]>
          (<["title" := JString (title (fields b))]>
          (<["author" := JString (author (fields b))]>
          (<["publication_year" := JInt (publication_year (fields b))]>
          {[ "isbn" := JString (isbn (fields b)) ]})))).

(* ===================================================================== *)
(** ** Facts about the storage layer                                     *)
(* ===================================================================== *)

Section StorageFacts.

Implicit Types (t : table) (m : gmap Z BookCreate) (b : BookCreate).

Lemma MAX_ROWID_value : MAX_ROWID = 9223372036854775807.
Proof. reflexivity. Qed.

Lemma largest_ge (l : list Z) (x : Z) :
  x ∈ l -> ∃ mx, largest l = Some mx ∧ x <= mx.
Proof.
  induction l as [|k l IH]; intros Hx.
  - by apply elem_of_nil in Hx.
  - apply elem_of_cons in Hx as [->|Hx]; simpl.
    + destruct (largest l) as [mx|]; eexists; split; eauto; lia.
    + destruct (IH Hx) as (mx & -> & Hle). eexists; split; eauto. lia.
Qed.

Lemma max_rowid_ge m k b :
  m !! k = Some b -> ∃ mx, max_rowid m = Some mx ∧ k <= mx.
Proof.
  intros Hk. apply largest_ge.
  apply list_elem_of_fmap. exists (k, b). split; [done|].
  by apply elem_of_map_to_list.
Qed.

Lemma max_rowid_empty : max_rowid ∅ = None.
Proof. unfold max_rowid. by rewrite map_to_list_empty. Qed.

(** A rowid handed out by AUTOINCREMENT lies above every row of the table
    and above [sqlite_sequence], and is itself a rowid. *)
Lemma new_rowid_above t k :
  new_rowid t = Return k ->
  seq t < k ∧ k <= MAX_ROWID ∧ ∀ i b, rows t !! i = Some b -> i < k.
Proof.
  unfold new_rowid. intros H.
  destruct (MAX_ROWID <=? seq t) eqn:Hs; [done|].
  apply Z.leb_gt in Hs. simpl in H.
  destruct (max_rowid (rows t)) as [mx|] eqn:Hmx; simpl in H.
  - destruct (MAX_ROWID <=? mx) eqn:Hm; [done|].
    apply Z.leb_gt in Hm. injection H as <-.
    repeat split; [lia|lia|]. intros i b Hi.
    destruct (max_rowid_ge _ _ _ Hi) as (mx' & Hmx' & Hle).
    rewrite Hmx in Hmx'. injection Hmx' as <-. lia.
  - injection H as <-. pose proof MAX_ROWID_value.
    repeat split; [lia|lia|]. intros i b Hi.
    destruct (max_rowid_ge _ _ _ Hi) as (mx' & Hmx' & _). congruence.
Qed.

Lemma new_rowid_fresh t k : new_rowid t = Return k -> rows t !! k = None.
Proof.
  intros H. destruct (rows t !! k) as [b|] eqn:Hk; [|done].
  apply new_rowid_above in H as (_ & _ & H). specialize (H _ _ Hk). lia.
Qed.

(** On a sound table the next rowid is [sqlite_sequence + 1], unless the
    sequence is exhausted. *)
Lemma new_rowid_sound t :
  sound t -> seq t < MAX_ROWID -> new_rowid t = Return (seq t + 1).
Proof.
  intros (_ & Hseq & Hids) Hlt. unfold new_rowid.
  assert ((MAX_ROWID <=? seq t) = false) as -> by (apply Z.leb_gt; lia).
  simpl. destruct (max_rowid (rows t)) as [mx|] eqn:Hmx; simpl.
  - assert (mx ∈ (map_to_list (rows t)).*1) as Hin.
    { clear -Hmx. unfold max_rowid in Hmx.
      revert mx Hmx. induction ((map_to_list (rows t)).*1) as [|k l IH];
        intros mx Hmx; [done|]. simpl in Hmx.
      destruct (largest l) as [m'|] eqn:Hl.
      - injection Hmx as <-. destruct (Z.max_spec k m') as [[_ ->]|[_ ->]].
        + right. by apply IH.
        + left.
      - injection Hmx as <-. left. }
    apply list_elem_of_fmap in Hin as ([i b] & -> & Hin).
    apply elem_of_map_to_list in Hin. apply Hids in Hin. simpl in *.
    assert ((MAX_ROWID <=? i) = false) as -> by (apply Z.leb_gt; lia).
    f_equal. lia.
  - f_equal. lia.
Qed.

Lemma isbn_taken_true self s m :
  isbn_taken self s m = true ↔
  ∃ k b, m !! k = Some b ∧ Some k ≠ self ∧ isbn b = s.
Proof.
  unfold isbn_taken. rewrite bool_decide_eq_true, map_Exists_lookup.
  naive_solver.
Qed.

Lemma isbn_taken_false self s m :
  isbn_taken self s m = false ↔
  ∀ k b, m !! k = Some b -> Some k ≠ self -> isbn b ≠ s.
Proof.
  rewrite <- not_true_iff_false, isbn_taken_true. split.
  - intros H k b Hk Hne Heq. apply H. eauto.
  - intros H (k & b & Hk & Hne & Heq). by eapply H.
Qed.

Lemma empty_table_sound : sound empty_table.
Proof.
  unfold sound, isbn_unique, empty_table, MAX_ROWID; simpl.
  split_and!; [|lia|lia|]; intros *; by rewrite lookup_empty.
Qed.

(** The schema's invariant survives every statement. *)
Lemma run_on_sound stmt t c t' :
  sound t -> run_on stmt t = Return (c, t') -> sound t'.
Proof.
  intros Hs Hrun. destruct stmt as [| |i|b|b i|i]; simpl in Hrun.
  - by injection Hrun as _ <-.
  - by injection Hrun as _ <-.
  - destruct (rows t !! i); by injection Hrun as _ <-.
  - destruct (new_rowid t) as [k|] eqn:Hk; [|done].
    destruct (isbn_taken None (isbn b) (rows t)) eqn:Hfree; [done|].
    injection Hrun as _ <-.
    pose proof (new_rowid_above _ _ Hk) as (Hlt & Hmax & Habove).
    destruct Hs as (Huniq & Hseq & Hids).
    rewrite isbn_taken_false in Hfree.
    split_and!; simpl; try lia.
    + intros x y r r' Hx Hy Heq. simpl in *.
      apply lookup_insert_Some in Hx as [[<- <-]|[Hxk Hx]];
        apply lookup_insert_Some in Hy as [[<- <-]|[Hyk Hy]]; eauto.
      * exfalso. by eapply (Hfree y).
      * exfalso. by eapply (Hfree x).
    + intros x r Hx. simpl in *.
      apply lookup_insert_Some in Hx as [[<- <-]|[Hxk Hx]]; [lia|].
      specialize (Hids _ _ Hx). lia.
  - destruct (rows t !! i) as [old|] eqn:Hold;
      [|by injection Hrun as _ <-].
    destruct (isbn_taken (Some i) (isbn b) (rows t)) eqn:Hfree; [done|].
    injection Hrun as _ <-.
    destruct Hs as (Huniq & Hseq & Hids).
    rewrite isbn_taken_false in Hfree.
    split_and!; simpl; try lia.
    + intros x y r r' Hx Hy Heq. simpl in *.
      apply lookup_insert_Some in Hx as [[<- <-]|[Hxk Hx]];
        apply lookup_insert_Some in Hy as [[<- <-]|[Hyk Hy]]; eauto.
      * exfalso. eapply (Hfree y); [done|congruence|done].
      * exfalso. eapply (Hfree x); [done|congruence|done].
    + intros x r Hx. simpl in *.
      apply lookup_insert_Some in Hx as [[<- <-]|[Hxk Hx]]; eauto.
  - destruct (rows t !! i) as [old|] eqn:Hold;
      [|by injection Hrun as _ <-].
    injection Hrun as _ <-.
    destruct Hs as (Huniq & Hseq & Hids).
    split_and!; simpl; try lia.
    + intros x y r r' Hx Hy. simpl in *. apply lookup_delete_Some in Hx as [_ Hx].
      apply lookup_delete_Some in Hy as [_ Hy]. eauto.
    + intros x r Hx. simpl in *. apply lookup_delete_Some in Hx as [_ Hx]. eauto.
Qed.

End StorageFacts.

(* ===================================================================== *)
(** ** The handlers as written                                           *)
(* ===================================================================== *)

(** [with get_db() as conn] on the bare generator function: the call gives
    a generator object, the statement raises, the body never runs and the
    world is as it was. *)
Section AsWritten.

Lemma with_generator_object {S C A} (g : generator S C) (body : Py C A) s :
  with_ (generator_object g) body s = (Raise NoContextManagerProtocol, s).
Proof. reflexivity. Qed.

Lemma Main_init_db w : Main.init_db w = (Raise NoContextManagerProtocol, w).
Proof. reflexivity. Qed.

Lemma Main_get_books w :
  Main.get_books w = (Raise NoContextManagerProtocol, w).
Proof. reflexivity. Qed.

Lemma Main_get_book i w :
  Main.get_book i w = (Raise NoContextManagerProtocol, w).
Proof. reflexivity. Qed.

Lemma Main_create_book book w :
  Main.create_book book w = (Raise NoContextManagerProtocol, w).
Proof. reflexivity. Qed.

Lemma Main_update_book i book w :
  Main.update_book i book w = (Raise NoContextManagerProtocol, w).
Proof. reflexivity. Qed.

Lemma Main_delete_book i w :
  Main.delete_book i w = (Raise NoContextManagerProtocol, w).
Proof. reflexivity. Qed.

Lemma Main_serve r w :
  serve Main.get_db r w = (Raise NoContextManagerProtocol, w).
Proof. by destruct r. Qed.

(** As written, no sequence of requests changes the world, hands a
    statement to the engine or creates a record. *)
Lemma Main_serve_all rs w :
  (serve_all Main.get_db rs w).2 = w ∧
  created_ids (serve_all Main.get_db rs w).1 = [].
Proof.
  induction rs as [|r rs [IHw IHids]]; [done|].
  simpl. rewrite Main_serve.
  destruct (serve_all Main.get_db rs w) as [log w']. simpl in *.
  split; [done|]. by destruct r.
Qed.

End AsWritten.

(* ===================================================================== *)
(** ** The handlers under [@contextmanager]                              *)
(* ===================================================================== *)

Section UnderContextManager.

Implicit Types (t : table) (w : world) (book : BookCreate).

Lemma Decorated_init_db w :
  Decorated.init_db w =
    (Return tt,
     {| library_db := Some (default empty_table (library_db w));
        journal := journal w ++ [CREATE_TABLE_IF_NOT_EXISTS] |}).
Proof.
  unfold Decorated.init_db, App.init_db, with_, bind, execute, commit.
  simpl. by destruct (library_db w).
Qed.

(** Schema initialisation creates the table when it is absent and keeps it
    when it is there. *)
Lemma Decorated_init_db_idempotent w :
  library_db (Decorated.init_db (Decorated.init_db w).2).2 =
    library_db (Decorated.init_db w).2.
Proof. by rewrite !Decorated_init_db. Qed.

Lemma Decorated_get_book i w t :
  library_db w = Some t -> is_int64 i = true ->
  Decorated.get_book i w =
    (match rows t !! i with
     | Some r => Return {| fields := r; id := i |}
     | None => Raise NotFound
     end, logged w (SELECT_where_id i)).
Proof.
  intros Hdb Hi. destruct w as [db j]; simpl in Hdb; subst db.
  unfold Decorated.get_book, App.get_book, with_, bind, execute. simpl.
  rewrite Hi. simpl. by destruct (rows t !! i).
Qed.

Lemma Decorated_create_book book w t k :
  library_db w = Some t -> is_int64 (publication_year book) = true ->
  new_rowid t = Return k ->
  Decorated.create_book book w =
    if isbn_taken None (isbn book) (rows t)
    then (Raise Conflict, logged w (INSERT_RETURNING book))
    else (Return {| fields := book; id := k |},
          {| library_db :=
               Some {| rows := <[k:=book]> (rows t); seq := k |};
             journal := journal w ++ [INSERT_RETURNING book] |}).
Proof.
  intros Hdb Hy Hk. destruct w as [db j]; simpl in Hdb; subst db.
  unfold Decorated.create_book, App.create_book, try_except, with_, bind,
    execute. simpl.
  rewrite Hy. simpl. rewrite Hk.
  by destruct (isbn_taken None (isbn book) (rows t)).
Qed.

Lemma Decorated_update_book i book w t :
  library_db w = Some t -> is_int64 (publication_year book) = true ->
  is_int64 i = true ->
  Decorated.update_book i book w =
    match rows t !! i with
    | None => (Raise NotFound, logged w (UPDATE_RETURNING book i))
    | Some _ =>
        if isbn_taken (Some i) (isbn book) (rows t)
        then (Raise IntegrityError, logged w (UPDATE_RETURNING book i))
        else (Return {| fields := book; id := i |},
              {| library_db :=
                   Some {| rows := <[i:=book]> (rows t); seq := seq t |};
                 journal := journal w ++ [UPDATE_RETURNING book i] |})
    end.
Proof.
  intros Hdb Hy Hi. destruct w as [db j]; simpl in Hdb; subst db.
  unfold Decorated.update_book, App.update_book, with_, bind, execute.
  simpl. rewrite Hy, Hi. simpl.
  destruct (rows t !! i); [|done].
  by destruct (isbn_taken (Some i) (isbn book) (rows t)).
Qed.

Lemma Decorated_delete_book i w t :
  library_db w = Some t -> is_int64 i = true ->
  Decorated.delete_book i w =
    match rows t !! i with
    | None => (Raise NotFound, logged w (DELETE_RETURNING_id i))
    | Some _ =>
        (Return deleted_message,
         {| library_db :=
              Some {| rows := delete i (rows t); seq := seq t |};
            journal := journal w ++ [DELETE_RETURNING_id i] |})
    end.
Proof.
  intros Hdb Hi. destruct w as [db j]; simpl in Hdb; subst db.
  unfold Decorated.delete_book, App.delete_book, with_, bind, execute.
  simpl. rewrite Hi. simpl. by destruct (rows t !! i).
Qed.

End UnderContextManager.

(* ===================================================================== *)
(** ** What each handler does to the table, under either binding         *)
(* ===================================================================== *)

Section Effects.

Implicit Types (b : binding) (t : table) (w : world) (book : BookCreate).

Lemma get_book_table b i w :
  library_db (App.get_book (get_db_of b) i w).2 = library_db w.
Proof.
  destruct b; [done|]. destruct w as [db j].
  unfold App.get_book, with_, bind, execute; simpl.
  destruct (is_int64 i); [|done]. destruct db as [t|]; [|done]. simpl.
  by destruct (rows t !! i).
Qed.

Lemma comprehension_state {S A B} (f : A -> Py S B) (l : list A) (s : S) :
  (∀ a s, (f a s).2 = s) -> (comprehension f l s).2 = s.
Proof.
  intros Hf. revert s. induction l as [|a l IH]; intros s; [done|].
  simpl. unfold bind. specialize (Hf a s).
  destruct (f a s) as [[x|e] s1]; simpl in Hf; subst s1; [|done].
  specialize (IH s).
  destruct (comprehension f l s) as [[xs|e] s2]; simpl in *; by subst.
Qed.

Lemma get_books_table b w :
  library_db (App.get_books (get_db_of b) w).2 = library_db w.
Proof.
  destruct b; [done|]. destruct w as [db j].
  unfold App.get_books, with_, bind, execute; simpl.
  destruct db as [t|]; [|done]. simpl.
  match goal with
  | |- context [comprehension ?f ?l ?c] =>
      pose proof (comprehension_state f l c) as Hc;
      destruct (comprehension f l c) as [r c']
  end.
  simpl in *. rewrite Hc; [done|]. by intros [] ?.
Qed.


Lemma create_book_effect b book w r w' :
  App.create_book (get_db_of b) book w = (r, w') ->
  ((∃ e, r = Raise e) ∧ library_db w' = library_db w) ∨
  (∃ t k, library_db w = Some t ∧ new_rowid t = Return k ∧
          isbn_taken None (isbn book) (rows t) = false ∧
          r = Return {| fields := book; id := k |} ∧
          library_db w' =
            Some {| rows := <[k:=book]> (rows t); seq := k |}).
Proof.
  destruct b.
  - intros [= <- <-]. left. eauto.
  - destruct w as [db j].
    unfold App.create_book, try_except, with_, bind, execute; simpl.
    destruct (is_int64 (publication_year book));
      [|intros [= <- <-]; left; eauto].
    destruct db as [t|]; simpl; [|intros [= <- <-]; left; eauto].
    destruct (new_rowid t) as [k|e] eqn:Hk; simpl;
      [|destruct e; intros [= <- <-]; left; eauto].
    destruct (isbn_taken None (isbn book) (rows t)) eqn:Hfree; simpl;
      intros [= <- <-]; [left; eauto|].
    right. exists t, k. done.
Qed.

Lemma update_book_effect b i book w r w' :
  App.update_book (get_db_of b) i book w = (r, w') ->
  ((∃ e, r = Raise e) ∧ library_db w' = library_db w) ∨
  (∃ t old, library_db w = Some t ∧ rows t !! i = Some old ∧
            isbn_taken (Some i) (isbn book) (rows t) = false ∧
            r = Return {| fields := book; id := i |} ∧
            library_db w' =
              Some {| rows := <[i:=book]> (rows t); seq := seq t |}).
Proof.
  destruct b.
  - intros [= <- <-]. left. eauto.
  - destruct w as [db j].
    unfold App.update_book, with_, bind, execute; simpl.
    destruct (is_int64 (publication_year book) && is_int64 i);
      [|intros [= <- <-]; left; eauto].
    destruct db as [t|]; simpl; [|intros [= <- <-]; left; eauto].
    destruct (rows t !! i) as [old|] eqn:Hold; simpl;
      [|intros [= <- <-]; left; eauto].
    destruct (isbn_taken (Some i) (isbn book) (rows t)) eqn:Hfree; simpl;
      intros [= <- <-]; [left; eauto|].
    right. exists t, old. done.
Qed.

Lemma delete_book_effect b i w r w' :
  App.delete_book (get_db_of b) i w = (r, w') ->
  ((∃ e, r = Raise e) ∧ library_db w' = library_db w) ∨
  (∃ t old, library_db w = Some t ∧ rows t !! i = Some old ∧
            r = Return deleted_message ∧
            library_db w' =
              Some {| rows := delete i (rows t); seq := seq t |}).
Proof.
  destruct b.
  - intros [= <- <-]. left. eauto.
  - destruct w as [db j].
    unfold App.delete_book, with_, bind, execute; simpl.
    destruct (is_int64 i); [|intros [= <- <-]; left; eauto].
    destruct db as [t|]; simpl; [|intros [= <- <-]; left; eauto].
    destruct (rows t !! i) as [old|] eqn:Hold; simpl;
      intros [= <- <-]; [|left; eauto].
    right. exists t, old. done.
Qed.

(** Under either binding a request leaves a sound table sound: isbn stays
    unique and ids stay within [sqlite_sequence]. *)
Lemma serve_sound b (r : request) w t resp w' :
  serve (get_db_of b) r w = (resp, w') ->
  library_db w = Some t -> sound t ->
  ∃ t', library_db w' = Some t' ∧ sound t'.
Proof.
  intros Hstep Hdb Hs. destruct r as [|i|book|i book|i]; unfold serve in Hstep.
  - pose proof (get_books_table b w) as Hsame.
    destruct (App.get_books (get_db_of b) w) as [[l|e] w1];
      injection Hstep as <- <-; simpl in *; rewrite Hsame; eauto.
  - pose proof (get_book_table b i w) as Hsame.
    destruct (App.get_book (get_db_of b) i w) as [[l|e] w1];
      injection Hstep as <- <-; simpl in *; rewrite Hsame; eauto.
  - destruct (App.create_book (get_db_of b) book w) as [res w1] eqn:Hrun.
    apply create_book_effect in Hrun
      as [[[e ->] Hsame]|(t0 & k & Hdb0 & Hk & Hfree & -> & Hdb1)];
      injection Hstep as <- <-.
    + rewrite Hsame. eauto.
    + rewrite Hdb in Hdb0. injection Hdb0 as <-.
      eexists; split; [done|].
      apply (run_on_sound (INSERT_RETURNING book) t
               [all_columns {| fields := book; id := k |}]); [done|].
      simpl. by rewrite Hk, Hfree.
  - destruct (App.update_book (get_db_of b) i book w) as [res w1] eqn:Hrun.
    apply update_book_effect in Hrun
      as [[[e ->] Hsame]|(t0 & old & Hdb0 & Hold & Hfree & -> & Hdb1)];
      injection Hstep as <- <-.
    + rewrite Hsame. eauto.
    + rewrite Hdb in Hdb0. injection Hdb0 as <-.
      eexists; split; [done|].
      apply (run_on_sound (UPDATE_RETURNING book i) t
               [all_columns {| fields := book; id := i |}]); [done|].
      simpl. by rewrite Hold, Hfree.
  - destruct (App.delete_book (get_db_of b) i w) as [res w1] eqn:Hrun.
    apply delete_book_effect in Hrun
      as [[[e ->] Hsame]|(t0 & old & Hdb0 & Hold & -> & Hdb1)];
      injection Hstep as <- <-.
    + rewrite Hsame. eauto.
    + rewrite Hdb in Hdb0. injection Hdb0 as <-.
      eexists; split; [done|].
      apply (run_on_sound (DELETE_RETURNING_id i) t [id_column i]); [done|].
      simpl. by rewrite Hold.
Qed.

Lemma serve_all_sound b (rs : list request) w t :
  library_db w = Some t -> sound t ->
  ∃ t', library_db (serve_all (get_db_of b) rs w).2 = Some t' ∧ sound t'.
Proof.
  revert w t. induction rs as [|r rs IH]; intros w t Hdb Hs; simpl; [eauto|].
  destruct (serve (get_db_of b) r w) as [resp w1] eqn:Hstep.
  destruct (serve_sound _ _ _ _ _ _ Hstep Hdb Hs) as (t1 & Hdb1 & Hs1).
  specialize (IH _ _ Hdb1 Hs1).
  by destruct (serve_all (get_db_of b) rs w1).
Qed.

End Effects.

(* ===================================================================== *)
(** ** Create and read                                                   *)
(* ===================================================================== *)

(** C1, on main.py as written.  create on the book of the spec's scenario
    and an empty table does not succeed: [with get_db() as conn] raises, the
    [except sqlite3.IntegrityError] clause does not match, the request ends
    in an unhandled error (500) and no record is stored. *)
Theorem create_as_written_raises :
  Main.create_book dune fresh = (Raise NoContextManagerProtocol, fresh) ∧
  status_code (Main.create_book dune fresh).1 = 500.
Proof. split; reflexivity. Qed.

(** With [@contextmanager] on [get_db] the handlers do what C1 says: on a
    sound table that is not exhausted, create with a bindable year and an
    unused isbn returns the input under the next id, and get with that id
    returns the same record. *)
Lemma Decorated_create_then_get book w t :
  library_db w = Some t -> sound t -> seq t < MAX_ROWID ->
  is_int64 (publication_year book) = true ->
  isbn_taken None (isbn book) (rows t) = false ->
  ∃ w', Decorated.create_book book w =
          (Return {| fields := book; id := seq t + 1 |}, w') ∧
        (Decorated.get_book (seq t + 1) w').1 =
          Return {| fields := book; id := seq t + 1 |}.
Proof.
  intros Hdb Hs Hlt Hy Hfree.
  pose proof (new_rowid_sound _ Hs Hlt) as Hk.
  rewrite (Decorated_create_book _ _ _ _ Hdb Hy Hk), Hfree.
  eexists; split; [done|].
  erewrite Decorated_get_book; [|done|].
  - simpl. by rewrite lookup_insert_eq.
  - destruct Hs as (_ & Hseq & _). pose proof MAX_ROWID_value.
    unfold is_int64. apply andb_true_iff. split; apply Z.leb_le; lia.
Qed.

(** C2, on main.py as written.  create with the isbn of a stored record
    does not answer Conflict (400): it ends in the same unhandled error.
    The table is indeed unchanged. *)
Theorem duplicate_isbn_as_written_raises :
  Main.create_book dune stocked = (Raise NoContextManagerProtocol, stocked) ∧
  (Main.create_book dune stocked).1 ≠ Raise Conflict ∧
  status_code (Main.create_book dune stocked).1 = 500.
Proof. split_and!; [reflexivity|discriminate|reflexivity]. Qed.

(** With [@contextmanager]: create with a taken isbn answers Conflict and
    commits nothing, so the table, and with it the row count, is as
    before. *)
Lemma Decorated_duplicate_isbn book w t k j r :
  library_db w = Some t -> is_int64 (publication_year book) = true ->
  new_rowid t = Return k ->
  rows t !! j = Some r -> isbn r = isbn book ->
  Decorated.create_book book w =
    (Raise Conflict, logged w (INSERT_RETURNING book)) ∧
  status_code (Decorated.create_book book w).1 = 400 ∧
  library_db (Decorated.create_book book w).2 = Some t.
Proof.
  intros Hdb Hy Hk Hj Hisbn.
  rewrite (Decorated_create_book _ _ _ _ Hdb Hy Hk).
  assert (isbn_taken None (isbn book) (rows t) = true) as ->.
  { apply isbn_taken_true. exists j, r. done. }
  done.
Qed.

(* ===================================================================== *)
(** ** Update                                                            *)
(* ===================================================================== *)

(** C3.  Under either binding of [get_db]: when the table holds a record at
    [i] and another record [j] already has the isbn of the input, update
    raises and the table afterwards is the very table it was, so every row
    and the uniqueness of isbn are as before. *)
Theorem update_to_colliding_isbn_fails
    (b : binding) (w : world) (t : table) (i j : Z) (r r' input : BookCreate) :
  library_db w = Some t ->
  rows t !! i = Some r -> rows t !! j = Some r' -> j ≠ i ->
  isbn r' = isbn input ->
  ∃ e w', App.update_book (get_db_of b) i input w = (Raise e, w') ∧
          library_db w' = Some t.
Proof.
  intros Hdb Hi Hj Hne Hisbn.
  destruct (App.update_book (get_db_of b) i input w) as [res w'] eqn:Hrun.
  apply update_book_effect in Hrun
    as [[[e ->] Hsame]|(t0 & old & Hdb0 & _ & Hfree & _)].
  - exists e, w'. split; [done|]. by rewrite Hsame.
  - exfalso. rewrite Hdb in Hdb0. injection Hdb0 as <-.
    rewrite isbn_taken_false in Hfree. eapply (Hfree j); [done| |done].
    congruence.
Qed.

Lemma update_to_colliding_isbn_fails_witness :
  ∃ e w', App.update_book (get_db_of decorated) 1 emma shelf = (Raise e, w') ∧
          library_db w' = Some two_books.
Proof.
  apply (update_to_colliding_isbn_fails decorated shelf two_books 1 2
           dune emma emma);
    [reflexivity | reflexivity | reflexivity | lia | reflexivity].
Defined.

(** Under [@contextmanager] the error of that update is the engine's
    [IntegrityError], which [update_book] does not catch (500). *)
Lemma Decorated_update_collision book i w t j r old :
  library_db w = Some t ->
  is_int64 (publication_year book) = true -> is_int64 i = true ->
  rows t !! i = Some old -> rows t !! j = Some r -> j ≠ i ->
  isbn r = isbn book ->
  Decorated.update_book i book w =
    (Raise IntegrityError, logged w (UPDATE_RETURNING book i)).
Proof.
  intros Hdb Hy Hi Hold Hj Hne Hisbn.
  rewrite (Decorated_update_book _ _ _ _ Hdb Hy Hi), Hold.
  assert (isbn_taken (Some i) (isbn book) (rows t) = true) as ->; [|done].
  apply isbn_taken_true. exists j, r. split_and!; [done|congruence|done].
Qed.

(** C4, on main.py as written.  update of the stored record 1 does not
    succeed, and the record keeps its old fields. *)
Theorem update_as_written_raises :
  Main.update_book 1 emma stocked = (Raise NoContextManagerProtocol, stocked) ∧
  status_code (Main.update_book 1 emma stocked).1 = 500.
Proof. split; reflexivity. Qed.

(** With [@contextmanager]: update of a stored id with an isbn no other
    record holds returns the input under the same id, and so does a
    following get. *)
Lemma Decorated_update_then_get book i w t old :
  library_db w = Some t ->
  is_int64 (publication_year book) = true -> is_int64 i = true ->
  rows t !! i = Some old ->
  isbn_taken (Some i) (isbn book) (rows t) = false ->
  ∃ w', Decorated.update_book i book w =
          (Return {| fields := book; id := i |}, w') ∧
        (Decorated.get_book i w').1 = Return {| fields := book; id := i |}.
Proof.
  intros Hdb Hy Hi Hold Hfree.
  rewrite (Decorated_update_book _ _ _ _ Hdb Hy Hi), Hold, Hfree.
  eexists; split; [done|].
  erewrite Decorated_get_book; [|done|done].
  simpl. by rewrite lookup_insert_eq.
Qed.

(* ===================================================================== *)
(** ** Delete and read                                                   *)
(* ===================================================================== *)

(** C5, on main.py as written.  delete of the stored id 1 does not succeed
    and removes nothing; delete of the absent id 2 does not answer NotFound
    (404): both end in the unhandled error of the [with] statement. *)
Theorem delete_as_written_raises :
  Main.delete_book 1 stocked = (Raise NoContextManagerProtocol, stocked) ∧
  Main.delete_book 2 stocked = (Raise NoContextManagerProtocol, stocked) ∧
  (Main.delete_book 2 stocked).1 ≠ Raise NotFound ∧
  status_code (Main.delete_book 2 stocked).1 = 500.
Proof. split_and!; [reflexivity|reflexivity|discriminate|reflexivity]. Qed.

(** With [@contextmanager]: delete of a stored id answers the confirmation
    message and a following get answers NotFound. *)
Lemma Decorated_delete_then_get i w t old :
  library_db w = Some t -> is_int64 i = true -> rows t !! i = Some old ->
  ∃ w', Decorated.delete_book i w = (Return deleted_message, w') ∧
        (Decorated.get_book i w').1 = Raise NotFound ∧
        status_code (Decorated.get_book i w').1 = 404.
Proof.
  intros Hdb Hi Hold.
  rewrite (Decorated_delete_book _ _ _ Hdb Hi), Hold.
  eexists; split; [done|].
  erewrite Decorated_get_book; [|done|done].
  simpl. by rewrite lookup_delete_eq.
Qed.

(** With [@contextmanager]: delete of an absent id answers NotFound and
    leaves the table as it was. *)
Lemma Decorated_delete_absent i w t :
  library_db w = Some t -> is_int64 i = true -> rows t !! i = None ->
  Decorated.delete_book i w = (Raise NotFound, logged w (DELETE_RETURNING_id i)).
Proof.
  intros Hdb Hi Hnone.
  by rewrite (Decorated_delete_book _ _ _ Hdb Hi), Hnone.
Qed.

(** C6, on main.py as written.  get of the absent id 7 does not answer
    NotFound (404) and get of the stored id 1 does not return the record:
    both end in the unhandled error of the [with] statement. *)
Theorem get_as_written_raises :
  Main.get_book 7 stocked = (Raise NoContextManagerProtocol, stocked) ∧
  (Main.get_book 7 stocked).1 ≠ Raise NotFound ∧
  Main.get_book 1 stocked = (Raise NoContextManagerProtocol, stocked) ∧
  status_code (Main.get_book 1 stocked).1 = 500.
Proof. split_and!; [reflexivity|discriminate|reflexivity|reflexivity]. Qed.

(** With [@contextmanager]: get answers NotFound exactly for the ids the
    table does not hold and the stored record otherwise. *)
Lemma Decorated_get_absent i w t :
  library_db w = Some t -> is_int64 i = true -> rows t !! i = None ->
  (Decorated.get_book i w).1 = Raise NotFound ∧
  status_code (Decorated.get_book i w).1 = 404.
Proof.
  intros Hdb Hi Hnone.
  by rewrite (Decorated_get_book _ _ _ Hdb Hi), Hnone.
Qed.


(** An id outside 64 bits is not answered with NotFound even under
    [@contextmanager]: binding it raises [OverflowError]. *)
Lemma Decorated_get_unbindable i w :
  is_int64 i = false -> Decorated.get_book i w = (Raise OverflowError, w).
Proof.
  intros Hi. destruct w as [db j].
  unfold Decorated.get_book, App.get_book, with_, bind, execute. simpl.
  by rewrite Hi.
Qed.

(* ===================================================================== *)
(** ** Text fields                                                       *)
(* ===================================================================== *)

(** C7 does not hold: a body whose title and author are the empty string
    passes validation against [BookCreate]; the INSERT and the UPDATE store
    the empty strings under the schema of [init_db]; with a working
    connection scope POST and PUT answer 200 with the empty title and
    author; and as written the answer is not a validation error either. *)
Lemma blank_title_and_author_accepted :
  @BookCreate_validate exact_types (Some blank_body) = Some blank ∧
  title blank = "" ∧ author blank = "" ∧
  run (INSERT_RETURNING blank) (Some empty_table) =
    Return ([all_columns {| fields := blank; id := 1 |}],
            Some {| rows := {[ 1 := blank ]}; seq := 1 |}) ∧
  run (UPDATE_RETURNING blank 1) (Some one_book) =
    Return ([all_columns {| fields := blank; id := 1 |}],
            Some {| rows := {[ 1 := blank ]}; seq := 1 |}) ∧
  (@POST_items exact_types Decorated.get_db (Some blank_body) fresh).1 =
    Return {| fields := blank; id := 1 |} ∧
  (@PUT_items exact_types Decorated.get_db 1 (Some blank_body) stocked).1 =
    Return {| fields := blank; id := 1 |} ∧
  (@POST_items exact_types Main.get_db (Some blank_body) fresh).1 ≠
    Raise RequestValidationError.
Proof. split_and!; (reflexivity || discriminate). Qed.

(** C7 as amended.  Title and author are text that may be empty.  Whatever
    strings a body carries for them pass validation, and the statements
    store them as given: after the INSERT the new row, and after the UPDATE
    the row at [i], holds exactly the title and author of the input. *)
Theorem title_and_author_stored_as_given
    (t : table) (k i : Z) (old book : BookCreate) (o : gmap string json) :
  o !! "title" = Some (JString (title book)) ->
  o !! "author" = Some (JString (author book)) ->
  o !! "publication_year" = Some (JInt (publication_year book)) ->
  o !! "isbn" = Some (JString (isbn book)) ->
  new_rowid t = Return k ->
  isbn_taken None (isbn book) (rows t) = false ->
  rows t !! i = Some old ->
  isbn_taken (Some i) (isbn book) (rows t) = false ->
  @BookCreate_validate exact_types (Some (JObject o)) = Some book ∧
  (∃ t', run_on (INSERT_RETURNING book) t =
           Return ([all_columns {| fields := book; id := k |}], t') ∧
         rows t' !! k = Some book) ∧
  (∃ t', run_on (UPDATE_RETURNING book i) t =
           Return ([all_columns {| fields := book; id := i |}], t') ∧
         rows t' !! i = Some book).
Proof.
  intros Ht Ha Hy Hi Hk Hfree Hold Hfree'. split_and!.
  - unfold BookCreate_validate. rewrite Ht, Ha, Hy, Hi. simpl.
    by destruct book.
  - simpl. rewrite Hk, Hfree. eexists; split; [done|].
    simpl. by rewrite lookup_insert_eq.
  - simpl. rewrite Hold, Hfree'. eexists; split; [done|].
    simpl. by rewrite lookup_insert_eq.
Qed.

Lemma title_and_author_stored_as_given_witness :
  @BookCreate_validate exact_types (Some blank_body) = Some blank ∧
  (∃ t', run_on (INSERT_RETURNING blank) emma_left =
           Return ([all_columns {| fields := blank; id := 3 |}], t') ∧
         rows t' !! 3 = Some blank) ∧
  (∃ t', run_on (UPDATE_RETURNING blank 2) emma_left =
           Return ([all_columns {| fields := blank; id := 2 |}], t') ∧
         rows t' !! 2 = Some blank).
Proof.
  apply (title_and_author_stored_as_given emma_left 3 2 emma blank);
    reflexivity.
Defined.

(* ===================================================================== *)
(** ** Validation at the boundary                                        *)
(* ===================================================================== *)

Section BoundaryFacts.

Context {types : FieldTypes}.

Lemma invalid_body_None (body : option json) :
  invalid_body body -> BookCreate_validate body = None.
Proof.
  intros [|j Hj|o k Hk Hnone|o k j Hk Hsome Hbad|o j Hsome Hbad].
  - done.
  - destruct j; try done. by destruct (Hj o).
  - unfold BookCreate_validate.
    repeat (apply elem_of_cons in Hk as [->|Hk]);
      [..|by apply elem_of_nil in Hk]; rewrite Hnone; simpl;
      repeat (match goal with
              | |- context [(o !! ?x) ≫= ?f] => destruct (o !! x ≫= f); simpl
              end); done.
  - unfold BookCreate_validate.
    repeat (apply elem_of_cons in Hk as [->|Hk]);
      [..|by apply elem_of_nil in Hk]; rewrite Hsome; simpl; rewrite Hbad;
      simpl;
      repeat (match goal with
              | |- context [(o !! ?x) ≫= ?f] => destruct (o !! x ≫= f); simpl
              end); done.
  - unfold BookCreate_validate. rewrite Hsome; simpl; rewrite Hbad.
    repeat (match goal with
            | |- context [(o !! ?x) ≫= ?f] => destruct (o !! x ≫= f); simpl
            end); done.
Qed.

(** The five reasons are the only ones: a body that fails validation is
    not JSON, is not an object, lacks a field or has a field its validator
    refuses. *)
Lemma None_invalid_body (body : option json) :
  BookCreate_validate body = None -> invalid_body body.
Proof.
  destruct body as [j|]; [|constructor].
  destruct j as [| | | | | |o];
    try (intros _; apply not_an_object; discriminate).
  unfold BookCreate_validate.
  destruct (o !! "title") as [jt|] eqn:Ht;
    [|intros _; apply (missing_field o "title"); [set_solver|done]].
  simpl. destruct (validate_str jt) as [vt|] eqn:Hvt;
    [|intros _; apply (mistyped_str o "title" jt); [set_solver|done..]].
  destruct (o !! "author") as [ja|] eqn:Ha;
    [|intros _; apply (missing_field o "author"); [set_solver|done]].
  simpl. destruct (validate_str ja) as [va|] eqn:Hva;
    [|intros _; apply (mistyped_str o "author" ja); [set_solver|done..]].
  destruct (o !! "publication_year") as [jy|] eqn:Hy;
    [|intros _; apply (missing_field o "publication_year");
      [set_solver|done]].
  simpl. destruct (validate_int jy) as [vy|] eqn:Hvy;
    [|intros _; by apply (mistyped_int o jy)].
  destruct (o !! "isbn") as [ji|] eqn:Hi;
    [|intros _; apply (missing_field o "isbn"); [set_solver|done]].
  simpl. destruct (validate_str ji) as [vi|] eqn:Hvi;
    [|intros _; apply (mistyped_str o "isbn" ji); [set_solver|done..]].
  simpl. discriminate.
Qed.

End BoundaryFacts.

(** For either route, whatever [get_db] is bound to and whatever the
    validators accept: a body that fails validation is answered with the
    validation error (422); the handler is not called, so the world
    afterwards is the world before. *)
Theorem invalid_body_is_rejected {types : FieldTypes}
    (get_db : unit -> object world connection)
    (i : Z) (body : option json) (w : world) :
  invalid_body body ->
  POST_items get_db body w = (Raise RequestValidationError, w) ∧
  PUT_items get_db i body w = (Raise RequestValidationError, w) ∧
  status_code (POST_items get_db body w).1 = 422 ∧
  status_code (PUT_items get_db i body w).1 = 422.
Proof.
  intros Hbad%invalid_body_None.
  unfold POST_items, PUT_items. rewrite Hbad. done.
Qed.

Lemma invalid_body_is_rejected_witness :
  @POST_items exact_types Main.get_db (Some no_isbn_body) stocked =
    (Raise RequestValidationError, stocked) ∧
  @PUT_items exact_types Main.get_db 1 (Some no_isbn_body) stocked =
    (Raise RequestValidationError, stocked) ∧
  status_code
    (@POST_items exact_types Main.get_db (Some no_isbn_body) stocked).1 = 422 ∧
  status_code
    (@PUT_items exact_types Main.get_db 1 (Some no_isbn_body) stocked).1 = 422.
Proof.
  apply (@invalid_body_is_rejected exact_types Main.get_db 1
           (Some no_isbn_body) stocked).
  apply (@missing_field exact_types _ "isbn");
    [repeat constructor | reflexivity].
Defined.







(* ===================================================================== *)
(** ** Ids                                                               *)
(* ===================================================================== *)

Section Ids.

Implicit Types (b : binding) (w : world) (r : request).

(** One request: what lies above [sqlite_sequence] afterwards lay above it
    before, and an id answered by create lay above it before and below
    everything that lies above it afterwards. *)
Lemma serve_above b r w resp w' :
  serve (get_db_of b) r w = (resp, w') ->
  (∀ x, above (library_db w') x -> above (library_db w) x) ∧
  (∀ k, created_id (r, resp) = Some k ->
        above (library_db w) k ∧ ∀ x, above (library_db w') x -> k < x).
Proof.
  destruct r as [|i|book|i book|i]; unfold serve.
  - pose proof (get_books_table b w) as Hsame.
    destruct (App.get_books (get_db_of b) w) as [[l|e] w1];
      intros [= <- <-]; simpl in *; rewrite Hsame; done.
  - pose proof (get_book_table b i w) as Hsame.
    destruct (App.get_book (get_db_of b) i w) as [[l|e] w1];
      intros [= <- <-]; simpl in *; rewrite Hsame; done.
  - destruct (App.create_book (get_db_of b) book w) as [res w1] eqn:Hrun.
    apply create_book_effect in Hrun
      as [[[e ->] Hsame]|(t & k & Hdb & Hk & _ & -> & Hdb')];
      intros [= <- <-]; simpl.
    + rewrite Hsame. done.
    + rewrite Hdb, Hdb'. simpl.
      apply new_rowid_above in Hk as (Hlt & _ & _).
      split; [intros; lia|]. intros k' [= <-]. done.
  - destruct (App.update_book (get_db_of b) i book w) as [res w1] eqn:Hrun.
    apply update_book_effect in Hrun
      as [[[e ->] Hsame]|(t & old & Hdb & _ & _ & -> & Hdb')];
      intros [= <- <-]; simpl.
    + rewrite Hsame. done.
    + rewrite Hdb, Hdb'. done.
  - destruct (App.delete_book (get_db_of b) i w) as [res w1] eqn:Hrun.
    apply delete_book_effect in Hrun
      as [[[e ->] Hsame]|(t & old & Hdb & _ & -> & Hdb')];
      intros [= <- <-]; simpl.
    + rewrite Hsame. done.
    + rewrite Hdb, Hdb'. done.
Qed.

Lemma created_ids_cons (entry : request * result content) log :
  created_ids (entry :: log) =
    match created_id entry with
    | Some k => k :: created_ids log
    | None => created_ids log
    end.
Proof. reflexivity. Qed.

Lemma created_ids_sorted_above b (rs : list request) w :
  StronglySorted Z.lt (created_ids (serve_all (get_db_of b) rs w).1) ∧
  Forall (above (library_db w)) (created_ids (serve_all (get_db_of b) rs w).1).
Proof.
  revert w. induction rs as [|r rs IH]; intros w; simpl.
  - split; constructor.
  - destruct (serve (get_db_of b) r w) as [resp w1] eqn:Hstep.
    destruct (IH w1) as [Hsorted Habove].
    destruct (serve_all (get_db_of b) rs w1) as [log w2].
    cbn [fst] in *. rewrite created_ids_cons.
    apply serve_above in Hstep as [Hmono Hnew].
    destruct (created_id (r, resp)) as [k|] eqn:Hk.
    + destruct (Hnew k eq_refl) as [Hk_above Hk_below]. split.
      * constructor; [done|].
        eapply Forall_impl; [exact Habove|]. intros x Hx. by apply Hk_below.
      * constructor; [done|].
        eapply Forall_impl; [exact Habove|]. intros x Hx. by apply Hmono.
    + split; [done|].
      eapply Forall_impl; [exact Habove|]. intros x Hx. by apply Hmono.
Qed.

End Ids.

(** C9.  Under either binding of [get_db], from any world and for any
    sequence of requests, the ids answered by the successful creates, in the
    order of the requests, are strictly increasing: each is greater than
    every id an earlier create answered, whatever was deleted in between. *)
Theorem created_ids_strictly_increasing
    (b : binding) (rs : list request) (w : world) :
  StronglySorted Z.lt (created_ids (serve_all (get_db_of b) rs w).1).
Proof. apply created_ids_sorted_above. Qed.

(** The scenario of the specification, as written and under
    [@contextmanager]. *)
Example Main_scenario :
  statuses (serve_all Main.get_db scenario fresh).1 = [500; 500; 500; 500; 500].
Proof. reflexivity. Qed.

Example Decorated_scenario :
  statuses (serve_all Decorated.get_db scenario fresh).1 =
    [200; 400; 200; 200; 404].
Proof. reflexivity. Qed.

(** Under [@contextmanager] an id freed by delete is not handed out again:
    create, delete 1, create answers the ids 1 and 2. *)
Example Decorated_ids_not_reused :
  created_ids
    (serve_all Decorated.get_db [create_ dune; delete_ 1; create_ dune] fresh).1
  = [1; 2].
Proof. reflexivity. Qed.

(* ===================================================================== *)
(** ** Other records                                                     *)
(* ===================================================================== *)

Lemma same_row_refl (i : Z) (db : database) : same_row i db db.
Proof. by destruct db. Qed.




Example other_records_untouched_operations_succeed :
  (App.create_book (get_db_of decorated) hobbit shelf).1 =
    Return {| fields := hobbit; id := 3 |} ∧
  (App.update_book (get_db_of decorated) 2 hobbit shelf).1 =
    Return {| fields := hobbit; id := 2 |} ∧
  (App.delete_book (get_db_of decorated) 2 shelf).1 = Return deleted_message.
Proof. split_and!; reflexivity. Qed.

(* ===================================================================== *)
(** ** Every outcome of the handlers under [@contextmanager]             *)
(* ===================================================================== *)

Section Outcomes.

Implicit Types (t : table) (w : world) (book : BookCreate).

Lemma new_rowid_error t e : new_rowid t = Raise e -> e = OperationalError.
Proof.
  unfold new_rowid. by destruct (_ || _); intros [= <-].
Qed.

Lemma comprehension_rows {S} (l : list (Z * BookCreate)) (s : S) :
  comprehension (λ row, Book_from (Some row))
    ((λ kr, all_columns {| fields := kr.2; id := kr.1 |}) <$> l) s =
    (Return ((λ kr, {| fields := kr.2; id := kr.1 |}) <$> l), s).
Proof.
  induction l as [|kr l IH]; [done|].
  rewrite !fmap_cons. cbn [comprehension]. unfold bind.
  change (Book_from (Some (all_columns {| fields := kr.2; id := kr.1 |})) s)
    with (Return {| fields := kr.2; id := kr.1 |}, s).
  cbv beta iota. by rewrite IH.
Qed.

Lemma Decorated_get_books_outcome w :
  Decorated.get_books w =
    (match library_db w with
     | Some t => Return (books_of t)
     | None => Raise OperationalError
     end, logged w SELECT_all).
Proof.
  destruct w as [[t|] j]; [|done].
  unfold Decorated.get_books, App.get_books, with_, bind, execute, fetchall.
  cbn -[comprehension Book_from].
  by rewrite comprehension_rows.
Qed.

Lemma Decorated_get_book_outcome i w :
  Decorated.get_book i w =
    if is_int64 i then
      (match library_db w with
       | None => Raise OperationalError
       | Some t =>
           match rows t !! i with
           | Some r => Return {| fields := r; id := i |}
           | None => Raise NotFound
           end
       end, logged w (SELECT_where_id i))
    else (Raise OverflowError, w).
Proof.
  destruct (is_int64 i) eqn:Hi; [|by apply Decorated_get_unbindable].
  destruct (library_db w) as [t|] eqn:Hdb;
    [by apply Decorated_get_book|].
  destruct w as [db j]; simpl in Hdb; subst db.
  unfold Decorated.get_book, App.get_book, with_, bind, execute. simpl.
  by rewrite Hi.
Qed.

Lemma Decorated_create_book_outcome book w :
  Decorated.create_book book w =
    if is_int64 (publication_year book) then
      match library_db w with
      | None => (Raise OperationalError, logged w (INSERT_RETURNING book))
      | Some t =>
          match new_rowid t with
          | Raise _ =>
              (Raise OperationalError, logged w (INSERT_RETURNING book))
          | Return k =>
              if isbn_taken None (isbn book) (rows t)
              then (Raise Conflict, logged w (INSERT_RETURNING book))
              else (Return {| fields := book; id := k |},
                    {| library_db :=
                         Some {| rows := <[k:=book]> (rows t); seq := k |};
                       journal := journal w ++ [INSERT_RETURNING book] |})
          end
      end
    else (Raise OverflowError, w).
Proof.
  destruct (is_int64 (publication_year book)) eqn:Hy.
  - destruct (library_db w) as [t|] eqn:Hdb.
    + destruct (new_rowid t) as [k|e] eqn:Hk;
        [by apply Decorated_create_book|].
      apply new_rowid_error in Hk as He. subst e.
      destruct w as [db j]; simpl in Hdb; subst db.
      unfold Decorated.create_book, App.create_book, try_except, with_, bind,
        execute. simpl. by rewrite Hy, Hk.
    + destruct w as [db j]; simpl in Hdb; subst db.
      unfold Decorated.create_book, App.create_book, try_except, with_, bind,
        execute. simpl. by rewrite Hy.
  - destruct w as [db j].
    unfold Decorated.create_book, App.create_book, try_except, with_, bind,
      execute. simpl. by rewrite Hy.
Qed.

Lemma Decorated_update_book_outcome i book w :
  Decorated.update_book i book w =
    if is_int64 (publication_year book) && is_int64 i then
      match library_db w with
      | None => (Raise OperationalError, logged w (UPDATE_RETURNING book i))
      | Some t =>
          match rows t !! i with
          | None => (Raise NotFound, logged w (UPDATE_RETURNING book i))
          | Some _ =>
              if isbn_taken (Some i) (isbn book) (rows t)
              then (Raise IntegrityError,
                    logged w (UPDATE_RETURNING book i))
              else (Return {| fields := book; id := i |},
                    {| library_db :=
                         Some {| rows := <[i:=book]> (rows t);
                                 seq := seq t |};
                       journal := journal w ++ [UPDATE_RETURNING book i] |})
          end
      end
    else (Raise OverflowError, w).
Proof.
  destruct (is_int64 (publication_year book) && is_int64 i) eqn:Hb.
  - apply andb_true_iff in Hb as [Hy Hi].
    destruct (library_db w) as [t|] eqn:Hdb;
      [by apply Decorated_update_book|].
    destruct w as [db j]; simpl in Hdb; subst db.
    unfold Decorated.update_book, App.update_book, with_, bind, execute.
    simpl. by rewrite Hy, Hi.
  - destruct w as [db j].
    unfold Decorated.update_book, App.update_book, with_, bind, execute.
    simpl. by rewrite Hb.
Qed.

Lemma Decorated_delete_book_outcome i w :
  Decorated.delete_book i w =
    if is_int64 i then
      match library_db w with
      | None => (Raise OperationalError, logged w (DELETE_RETURNING_id i))
      | Some t =>
          match rows t !! i with
          | None => (Raise NotFound, logged w (DELETE_RETURNING_id i))
          | Some _ =>
              (Return deleted_message,
               {| library_db :=
                    Some {| rows := delete i (rows t); seq := seq t |};
                  journal := journal w ++ [DELETE_RETURNING_id i] |})
          end
      end
    else (Raise OverflowError, w).
Proof.
  destruct (is_int64 i) eqn:Hi.
  - destruct (library_db w) as [t|] eqn:Hdb;
      [by apply Decorated_delete_book|].
    destruct w as [db j]; simpl in Hdb; subst db.
    unfold Decorated.delete_book, App.delete_book, with_, bind, execute.
    simpl. by rewrite Hi.
  - destruct w as [db j].
    unfold Decorated.delete_book, App.delete_book, with_, bind, execute.
    simpl. by rewrite Hi.
Qed.

End Outcomes.

(* ===================================================================== *)
(** ** Further properties: the module as written                         *)
(* ===================================================================== *)


(** X2.  Schema initialisation never alters a table that exists: under
    either binding of [get_db] it leaves the database as it is, or, where no
    table was, leaves an empty one.  As written it does not even that: it
    raises and library.db stays without a table. *)
Theorem init_db_only_adds_a_missing_table (b : binding) (w : world) :
  (library_db (App.init_db (get_db_of b) w).2 = library_db w ∨
   library_db w = None ∧
   library_db (App.init_db (get_db_of b) w).2 = Some empty_table) ∧
  Main.init_db w = (Raise NoContextManagerProtocol, w).
Proof.
  split; [|done]. destruct b; [by left|].
  change (App.init_db (get_db_of decorated)) with Decorated.init_db.
  rewrite Decorated_init_db. simpl.
  destruct (library_db w); [by left|by right].
Qed.

(* ===================================================================== *)
(** ** Further properties: under either binding                          *)
(* ===================================================================== *)

(** X3.  The two read handlers never write: after [get_book] and after
    [get_books] the database is what it was, whatever they answered. *)
Theorem reads_never_write (b : binding) (i : Z) (w : world) :
  library_db (App.get_book (get_db_of b) i w).2 = library_db w ∧
  library_db (App.get_books (get_db_of b) w).2 = library_db w.
Proof. split; [apply get_book_table|apply get_books_table]. Qed.

(** X4.  A request that is answered with an error leaves the database as
    it was: nothing is half done. *)
Theorem failed_request_changes_nothing
    (b : binding) (r : request) (w w' : world) (e : exception) :
  serve (get_db_of b) r w = (Raise e, w') ->
  library_db w' = library_db w.
Proof.
  destruct r as [|i|book|i book|i]; unfold serve.
  - pose proof (get_books_table b w) as Hsame.
    destruct (App.get_books (get_db_of b) w) as [[l|e'] w1];
      [intros [=]|]. by intros [= _ <-].
  - pose proof (get_book_table b i w) as Hsame.
    destruct (App.get_book (get_db_of b) i w) as [[l|e'] w1];
      [intros [=]|]. by intros [= _ <-].
  - destruct (App.create_book (get_db_of b) book w) as [res w1] eqn:Hrun.
    apply create_book_effect in Hrun
      as [[[e' ->] Hsame]|(t & k & _ & _ & _ & -> & _)];
      [|intros [=]]. by intros [= _ <-].
  - destruct (App.update_book (get_db_of b) i book w) as [res w1] eqn:Hrun.
    apply update_book_effect in Hrun
      as [[[e' ->] Hsame]|(t & old & _ & _ & _ & -> & _)];
      [|intros [=]]. by intros [= _ <-].
  - destruct (App.delete_book (get_db_of b) i w) as [res w1] eqn:Hrun.
    apply delete_book_effect in Hrun
      as [[[e' ->] Hsame]|(t & old & _ & _ & -> & _)];
      [|intros [=]]. by intros [= _ <-].
Qed.

Lemma failed_request_changes_nothing_witness :
  library_db (logged stocked (INSERT_RETURNING dune)) = library_db stocked.
Proof.
  apply (failed_request_changes_nothing decorated (create_ dune) stocked
           (logged stocked (INSERT_RETURNING dune)) Conflict).
  reflexivity.
Defined.

Ltac decorated_outcome :=
  change (App.get_books (get_db_of decorated)) with Decorated.get_books;
  change (App.get_book (get_db_of decorated)) with Decorated.get_book;
  change (App.create_book (get_db_of decorated)) with Decorated.create_book;
  change (App.update_book (get_db_of decorated)) with Decorated.update_book;
  change (App.delete_book (get_db_of decorated)) with Decorated.delete_book;
  rewrite ?Decorated_get_books_outcome, ?Decorated_get_book_outcome,
    ?Decorated_create_book_outcome, ?Decorated_update_book_outcome,
    ?Decorated_delete_book_outcome.

(** X6.  The statuses each handler can answer, under either binding:
    [get_books] 200 or 500; [get_book], [update_book] and [delete_book] 200,
    404 or 500; [create_book] 200, 400 or 500.  So only create ever answers
    400; and an update of a stored id that runs into the isbn of another
    record is answered 500, [update_book] having no [except] clause. *)
Theorem handler_statuses
    (b : binding) (i : Z) (book : BookCreate) (w : world) :
  status_code (App.get_books (get_db_of b) w).1 ∈ [200; 500] ∧
  status_code (App.get_book (get_db_of b) i w).1 ∈ [200; 404; 500] ∧
  status_code (App.create_book (get_db_of b) book w).1 ∈ [200; 400; 500] ∧
  status_code (App.update_book (get_db_of b) i book w).1 ∈ [200; 404; 500] ∧
  status_code (App.delete_book (get_db_of b) i w).1 ∈ [200; 404; 500] ∧
  (∀ t j old r,
     library_db w = Some t -> rows t !! i = Some old ->
     rows t !! j = Some r -> j ≠ i -> isbn r = isbn book ->
     status_code (App.update_book (get_db_of b) i book w).1 = 500).
Proof.
  destruct b; [split_and!; simpl; (set_solver || done)|].
  decorated_outcome.
  split_and!; [repeat case_match; simpl; set_solver..|].
  intros t j old r Hdb Hold Hj Hne Hisbn. rewrite Hdb, Hold.
  assert (isbn_taken (Some i) (isbn book) (rows t) = true) as ->.
  { apply isbn_taken_true. exists j, r. split_and!; [done|congruence|done]. }
  by destruct (_ && _).
Qed.

Lemma handler_statuses_witness :
  status_code (App.update_book (get_db_of decorated) 1 emma shelf).1 = 500.
Proof.
  destruct (handler_statuses decorated 1 emma shelf) as (_ & _ & _ & _ & _ & H).
  apply (H two_books 2 dune emma); [reflexivity..|lia|reflexivity].
Defined.

(** X7.  Under either binding, from a table on which isbn is unique and
    every id lies between 1 and [sqlite_sequence], any sequence of requests
    ends in a table of which the same is true. *)
Theorem requests_keep_the_schema_invariant
    (b : binding) (rs : list request) (w : world) (t : table) :
  library_db w = Some t -> sound t ->
  ∃ t', library_db (serve_all (get_db_of b) rs w).2 = Some t' ∧ sound t'.
Proof. apply serve_all_sound. Qed.

Lemma requests_keep_the_schema_invariant_witness :
  ∃ t', library_db
          (serve_all (get_db_of decorated)
             [create_ dune; create_ emma; delete_ 1; create_ dune] fresh).2
        = Some t' ∧ sound t'.
Proof.
  apply (requests_keep_the_schema_invariant decorated
           [create_ dune; create_ emma; delete_ 1; create_ dune]
           fresh empty_table).
  - reflexivity.
  - exact empty_table_sound.
Defined.



(** A scan of the table, and so the list [get_books] builds from it, is in
    ascending order of id. *)
Lemma books_of_ascending (t : table) :
  StronglySorted (λ x y, id x <= id y) (books_of t).
Proof.
  unfold books_of, scan.
  apply (StronglySorted_fmap _ by_rowid); [by intros [] []|].
  assert (Transitive by_rowid) by (intros a b c; unfold by_rowid; lia).
  assert (Total by_rowid) by (intros a b; unfold by_rowid; lia).
  by apply StronglySorted_merge_sort.
Qed.

(** X9.  Whenever [get_books] returns, under either binding, it returns the
    table and nothing else: a book is in the list exactly when the table
    holds its fields under its id, no id occurs twice, and the list is as
    long as the table has rows. *)
Theorem get_books_lists_the_table
    (b : binding) (w w' : world) (l : list Book) :
  App.get_books (get_db_of b) w = (Return l, w') ->
  ∃ t, library_db w = Some t ∧
       (∀ bk, bk ∈ l ↔ rows t !! id bk = Some (fields bk)) ∧
       NoDup (id <$> l) ∧
       length l = row_count t.
Proof.
  destruct b; [intros [=]|]. decorated_outcome.
  destruct (library_db w) as [t|]; intros [= <- _].
  exists t. split_and!; [done|..]; unfold books_of, scan.
  - intros [r i]. simpl. rewrite list_elem_of_fmap. split.
    + intros ([k v] & [= -> ->] & Hin).
      rewrite merge_sort_Permutation in Hin. by apply elem_of_map_to_list.
    + intros Hin. exists (i, r). split; [done|].
      rewrite merge_sort_Permutation. by apply elem_of_map_to_list.
  - rewrite <- list_fmap_compose, merge_sort_Permutation.
    apply (NoDup_fst_map_to_list (rows t)).
  - rewrite length_fmap, merge_sort_Permutation. apply length_map_to_list.
Qed.

Lemma get_books_lists_the_table_witness :
  ∃ t, library_db shelf = Some t ∧
       (∀ bk, bk ∈ books_of two_books ↔
              rows t !! id bk = Some (fields bk)) ∧
       NoDup (id <$> books_of two_books) ∧
       length (books_of two_books) = row_count t.
Proof.
  apply (get_books_lists_the_table decorated shelf
           (logged shelf SELECT_all) (books_of two_books)).
  reflexivity.
Defined.

(** What one request does to the table, under either binding: nothing
    (it failed, or it was a read), or the one change of a create, update or
    delete that succeeded. *)
Lemma serve_effect (b : binding) (r : request) (w w' : world)
    (resp : result content) :
  serve (get_db_of b) r w = (resp, w') ->
  (library_db w' = library_db w ∧
   ((∃ e, resp = Raise e) ∨ r = list_ ∨ ∃ i, r = get_ i)) ∨
  (∃ t k book, r = create_ book ∧ library_db w = Some t ∧
     new_rowid t = Return k ∧
     resp = Return (book_content {| fields := book; id := k |}) ∧
     library_db w' = Some {| rows := <[k:=book]> (rows t); seq := k |}) ∨
  (∃ t i book old, r = update_ i book ∧ library_db w = Some t ∧
     rows t !! i = Some old ∧
     resp = Return (book_content {| fields := book; id := i |}) ∧
     library_db w' = Some {| rows := <[i:=book]> (rows t); seq := seq t |}) ∨
  (∃ t i old, r = delete_ i ∧ library_db w = Some t ∧
     rows t !! i = Some old ∧
     resp = Return (message_content deleted_message) ∧
     library_db w' = Some {| rows := delete i (rows t); seq := seq t |}).
Proof.
  destruct r as [|i|book|i book|i]; unfold serve.
  - pose proof (get_books_table b w) as Hsame.
    destruct (App.get_books (get_db_of b) w) as [[l|e] w1];
      intros [= <- <-]; left; eauto.
  - pose proof (get_book_table b i w) as Hsame.
    destruct (App.get_book (get_db_of b) i w) as [[l|e] w1];
      intros [= <- <-]; left; eauto.
  - destruct (App.create_book (get_db_of b) book w) as [res w1] eqn:Hrun.
    apply create_book_effect in Hrun
      as [[[e ->] Hsame]|(t & k & Hdb & Hk & _ & -> & Hdb1)];
      intros [= <- <-]; [left; eauto|].
    right; left. by exists t, k, book.
  - destruct (App.update_book (get_db_of b) i book w) as [res w1] eqn:Hrun.
    apply update_book_effect in Hrun
      as [[[e ->] Hsame]|(t & old & Hdb & Hold & _ & -> & Hdb1)];
      intros [= <- <-]; [left; eauto|].
    right; right; left. by exists t, i, book, old.
  - destruct (App.delete_book (get_db_of b) i w) as [res w1] eqn:Hrun.
    apply delete_book_effect in Hrun
      as [[[e ->] Hsame]|(t & old & Hdb & Hold & -> & Hdb1)];
      intros [= <- <-]; [left; eauto|].
    right; right; right. by exists t, i, old.
Qed.

(** X10.  A request changes at most one row, under either binding: some id
    [k] is such that every other id holds afterwards what it held before;
    and [sqlite_sequence] does not decrease. *)
Theorem request_touches_at_most_one_row
    (b : binding) (r : request) (w : world) (t t' : table) :
  library_db w = Some t ->
  library_db (serve (get_db_of b) r w).2 = Some t' ->
  (∃ k, ∀ j, j ≠ k -> rows t' !! j = rows t !! j) ∧ seq t <= seq t'.
Proof.
  intros Hdb Hdb'.
  destruct (serve (get_db_of b) r w) as [resp w'] eqn:Hstep. simpl in Hdb'.
  apply serve_effect in Hstep
    as [[Hsame _]|[(t0 & k & book & _ & Hdb0 & Hk & _ & Hdb1)
       |[(t0 & i & book & old & _ & Hdb0 & _ & _ & Hdb1)
        |(t0 & i & old & _ & Hdb0 & _ & _ & Hdb1)]]].
  - rewrite Hsame, Hdb in Hdb'. injection Hdb' as <-.
    split; [by exists 0|lia].
  - rewrite Hdb in Hdb0. injection Hdb0 as <-.
    rewrite Hdb1 in Hdb'. injection Hdb' as <-. simpl.
    apply new_rowid_above in Hk as (Hlt & _ & _). split; [|lia].
    exists k. intros j Hj. by rewrite lookup_insert_ne.
  - rewrite Hdb in Hdb0. injection Hdb0 as <-.
    rewrite Hdb1 in Hdb'. injection Hdb' as <-. simpl. split; [|lia].
    exists i. intros j Hj. by rewrite lookup_insert_ne.
  - rewrite Hdb in Hdb0. injection Hdb0 as <-.
    rewrite Hdb1 in Hdb'. injection Hdb' as <-. simpl. split; [|lia].
    exists i. intros j Hj. by rewrite lookup_delete_ne.
Qed.

Lemma request_touches_at_most_one_row_witness :
  (∃ k, ∀ j, j ≠ k -> rows emma_left !! j = rows two_books !! j) ∧
  seq two_books <= seq emma_left.
Proof.
  apply (request_touches_at_most_one_row decorated (delete_ 1) shelf
           two_books emma_left); reflexivity.
Defined.

(** X11.  How a request changes the number of rows, under either binding:
    a create that is answered 200 adds exactly one row, a delete that is
    answered 200 removes exactly one, and every other request, an update
    and every failed request among them, leaves the number as it was. *)
Theorem request_row_count
    (b : binding) (r : request) (w w' : world) (resp : result content)
    (t : table) :
  serve (get_db_of b) r w = (resp, w') ->
  library_db w = Some t ->
  ∃ t', library_db w' = Some t' ∧
        row_count t' =
          match r, resp with
          | create_ _, Return _ => S (row_count t)
          | delete_ _, Return _ => pred (row_count t)
          | _, _ => row_count t
          end.
Proof.
  intros Hstep Hdb. unfold row_count.
  apply serve_effect in Hstep
    as [[Hsame Hwhy]|[(t0 & k & book & -> & Hdb0 & Hk & -> & Hdb1)
       |[(t0 & i & book & old & -> & Hdb0 & Hold & -> & Hdb1)
        |(t0 & i & old & -> & Hdb0 & Hold & -> & Hdb1)]]].
  - exists t. split; [congruence|].
    destruct Hwhy as [[e ->]|[->|[i ->]]]; [by destruct r|done|done].
  - rewrite Hdb in Hdb0. injection Hdb0 as <-.
    eexists; split; [done|]. simpl.
    apply map_size_insert_None. by apply new_rowid_fresh.
  - rewrite Hdb in Hdb0. injection Hdb0 as <-.
    eexists; split; [done|]. simpl.
    by apply map_size_insert_Some.
  - rewrite Hdb in Hdb0. injection Hdb0 as <-.
    eexists; split; [done|]. simpl.
    by apply map_size_delete_Some.
Qed.

Lemma request_row_count_witness :
  ∃ t', library_db (logged stocked (INSERT_RETURNING dune)) = Some t' ∧
        row_count t' = row_count one_book.
Proof.
  apply (request_row_count decorated (create_ dune) stocked
           (logged stocked (INSERT_RETURNING dune)) (Raise Conflict) one_book);
    reflexivity.
Defined.

(* ===================================================================== *)
(** ** Further properties: the statements under the schema               *)
(* ===================================================================== *)

(** X12.  Whenever the INSERT of [create_book] goes through, it returns one
    row, the input under an id that no row had and that lies above every
    id of the table; the SELECT of [get_book] with that id then yields the
    same row; and the table has one row more. *)
Theorem insert_then_select
    (book : BookCreate) (t t' : table) (c : cursor) :
  run_on (INSERT_RETURNING book) t = Return (c, t') ->
  ∃ k, c = [all_columns {| fields := book; id := k |}] ∧
       rows t !! k = None ∧
       (∀ i r, rows t !! i = Some r -> i < k) ∧
       run_on (SELECT_where_id k) t' = Return (c, t') ∧
       row_count t' = S (row_count t).
Proof.
  simpl. destruct (new_rowid t) as [k|] eqn:Hk; [|done].
  destruct (isbn_taken None (isbn book) (rows t)); [done|].
  intros [= <- <-]. exists k.
  pose proof (new_rowid_fresh _ _ Hk) as Hfresh.
  apply new_rowid_above in Hk as (_ & _ & Habove).
  split_and!; [done..| |].
  - simpl. by rewrite lookup_insert_eq.
  - unfold row_count. simpl. by apply map_size_insert_None.
Qed.

Lemma insert_then_select_witness :
  ∃ k, [all_columns {| fields := emma; id := 2 |}] =
         [all_columns {| fields := emma; id := k |}] ∧
       rows one_book !! k = None ∧
       (∀ i r, rows one_book !! i = Some r -> i < k) ∧
       run_on (SELECT_where_id k) two_books =
         Return ([all_columns {| fields := emma; id := 2 |}], two_books) ∧
       row_count two_books = S (row_count one_book).
Proof.
  apply (insert_then_select emma one_book two_books
           [all_columns {| fields := emma; id := 2 |}]).
  reflexivity.
Defined.

(** X13.  The UNIQUE constraint does not stand in the way of an UPDATE that
    keeps the record's own isbn: on a table with unique isbn, the UPDATE of
    a stored id with an input of the same isbn goes through and replaces
    the row. *)
Theorem update_may_keep_its_isbn
    (t : table) (i : Z) (old book : BookCreate) :
  isbn_unique t -> rows t !! i = Some old -> isbn book = isbn old ->
  run_on (UPDATE_RETURNING book i) t =
    Return ([all_columns {| fields := book; id := i |}],
            {| rows := <[i:=book]> (rows t); seq := seq t |}).
Proof.
  intros Huniq Hold Hisbn. simpl. rewrite Hold.
  assert (isbn_taken (Some i) (isbn book) (rows t) = false) as ->; [|done].
  apply isbn_taken_false. intros k r Hk Hne Heq.
  apply Hne. f_equal. apply (Huniq k i r old); congruence.
Qed.

Lemma update_may_keep_its_isbn_witness :
  run_on (UPDATE_RETURNING blank 1) two_books =
    Return ([all_columns {| fields := blank; id := 1 |}],
            {| rows := <[1:=blank]> (rows two_books); seq := seq two_books |}).
Proof.
  apply (update_may_keep_its_isbn two_books 1 dune blank).
  - intros i j r r' Hi Hj Heq. simpl in Hi, Hj.
    apply lookup_insert_Some in Hi as [[<- <-]|[_ Hi]];
      apply lookup_insert_Some in Hj as [[<- <-]|[_ Hj]]; try done;
      apply lookup_singleton_Some in Hi as [<- <-] ||
      apply lookup_singleton_Some in Hj as [<- <-]; try done.
    by apply lookup_singleton_Some in Hj as [<- _].
  - reflexivity.
  - reflexivity.
Defined.

(* ===================================================================== *)
(** ** Further properties: validation against [BookCreate]               *)
(* ===================================================================== *)

(** X14.  A body fails validation against [BookCreate] exactly when it is
    not JSON, is not an object, lacks one of the four fields, or carries a
    value that the validator of its field refuses; every other body yields
    a model. *)
Theorem validation_fails_only_for_a_reason
    {types : FieldTypes} (body : option json) :
  BookCreate_validate body = None ↔ invalid_body body.
Proof. split; [apply None_invalid_body|apply invalid_body_None]. Qed.

(** X16.  A [Book] in a response can be sent back as a request body: where
    the validators accept a JSON string as [str] and a JSON integer as
    [int], validation of the response body of a book yields the book's
    fields, its id being ignored. *)
Theorem response_validates_as_request
    {types : FieldTypes} (bk : Book) :
  (∀ s, validate_str (JString s) = Some s) ->
  (∀ n, validate_int (JInt n) = Some n) ->
  BookCreate_validate (Some (Book_json bk)) = Some (fields bk).
Proof.
  intros Hstr Hint. destruct bk as [[t a y i] k].
  unfold Book_json. cbn [fields id title author publication_year isbn].
  match goal with |- context [JObject ?m] => set (o := m) end.
  assert (o !! "title" = Some (JString t)) as Ht.
  { subst o. rewrite lookup_insert_ne by done. apply lookup_insert_eq. }
  assert (o !! "author" = Some (JString a)) as Ha.
  { subst o. do 2 (rewrite lookup_insert_ne by done). apply lookup_insert_eq. }
  assert (o !! "publication_year" = Some (JInt y)) as Hy.
  { subst o. do 3 (rewrite lookup_insert_ne by done). apply lookup_insert_eq. }
  assert (o !! "isbn" = Some (JString i)) as Hi.
  { subst o. do 4 (rewrite lookup_insert_ne by done).
    apply lookup_singleton_eq. }
  unfold BookCreate_validate. rewrite Ht, Ha, Hy, Hi. simpl.
  by rewrite !Hstr, Hint.
Qed.

Lemma response_validates_as_request_witness :
  @BookCreate_validate exact_types
     (Some (Book_json {| fields := dune; id := 1 |})) = Some dune.
Proof.
  apply (@response_validates_as_request exact_types
           {| fields := dune; id := 1 |}); intros; reflexivity.
Defined.
